(** * Network analytics dashboard: the statistics pipeline of [app.py]

    A shallow embedding of [load_network_data], [compute_stats], the two
    chart builders and the two Flask routes of [src/app.py], followed by
    the properties of the statistics report.

    Modelling choices.
    - A [DataFrame] is the ordered list of the rows of a table that has the
      four columns the program reads ([Protocol], [Source IP],
      [Destination IP], [Packet Size]).  A [Protocol] cell holds a text or
      is missing (the NaN that [read_csv] stores for an empty or NA field);
      an address cell is a value that [Counter] counts like any other; a
      size cell is an integer.  A table that lacks one of the four columns
      is a [Frame] of its own, on which [compute_stats] raises [KeyError].
    - The dict returned by [value_counts().to_dict()] is a [gmap]: Python
      compares dicts regardless of enumeration order, and no property below
      depends on it.  [Counter] and the dict of the top addresses are
      association lists in insertion order, because their order is what
      ranks the addresses.
    - [avg_packet_size] is an IEEE 754 binary64 number ([PrimFloat.float]),
      as the value pandas returns.
    - Reading the file, printing and saving figures are threaded through a
      small state monad over a [World]; an exception is a value of a sum
      type, and an exception that escapes a route is the response
      [InternalServerError]. *)

From Stdlib Require Import ZArith Floats.
From stdpp Require Import base list strings gmap sorting.

Open Scope string_scope.
Open Scope list_scope.

(** ** The table *)

Record Row := mkRow {
  Protocol : option string;
  Source_IP : string;
  Destination_IP : string;
  Packet_Size : Z
}.

Definition DataFrame := list Row.

(** ** pandas: the three queries the program makes *)

(** [Series.dropna()]: the cells that are present, in their order. *)
Definition dropna (col : list (option string)) : list string := omap id col.

(** One entry per distinct value, holding the number of cells with it. *)
Definition count_values (cells : list string) : gmap string nat :=
  foldl (λ m p, <[p := S (default 0 (m !! p))]> m) ∅ cells.

(** [Series.value_counts()], whose default is [dropna=True]: the missing
    cells are left out, the others are counted per distinct value. *)
Definition value_counts (col : list (option string)) : gmap string nat :=
  count_values (dropna col).

(** [Series.to_dict()] *)
Definition to_dict (s : gmap string nat) : gmap string nat := s.

(** [sum(d.values())] *)
Definition values (d : gmap string nat) : list nat := (map_to_list d).*2.
Definition sum_values (d : gmap string nat) : nat := sum_list (values d).

(** The cast of an integer cell to float64 (round to nearest, ties to even). *)
Definition float_of_Z (z : Z) : float :=
  match z with
  | Z0 => 0%float
  | Zpos p => SF2Prim (binary_round prec emax false p 0)
  | Zneg p => SF2Prim (binary_round prec emax true p 0)
  end.

(** [Series.mean()] of an integer column: the float64 sum of the cells
    divided by their number, and NaN when there is no cell
    ([the_sum / count if count > 0 else np.nan]).  The cells are added from
    left to right, which is numpy's order for fewer than eight cells; it
    adds longer columns pairwise, to the same float as long as the sums are
    exact.  Columns with fractional or missing sizes are not covered. *)
Definition series_sum (col : list Z) : float :=
  foldl (λ acc z, PrimFloat.add acc (float_of_Z z)) 0%float col.

Definition mean (col : list Z) : float :=
  if decide (0 < length col)
  then PrimFloat.div (series_sum col) (float_of_Z (Z.of_nat (length col)))
  else nan.

(** ** collections.Counter and dict, in insertion order *)

Definition pydict := list (string * nat).

(** [d[k] = v]: an existing key keeps its place, a new key goes last. *)
Fixpoint dict_set (k : string) (v : nat) (d : pydict) : pydict :=
  match d with
  | [] => [(k, v)]
  | (k', v') :: d' =>
      if decide (k = k') then (k', v) :: d' else (k', v') :: dict_set k v d'
  end.

(** [c[k]] on a Counter: a missing key counts 0. *)
Fixpoint counter_get (k : string) (c : pydict) : nat :=
  match c with
  | [] => 0
  | (k', v) :: c' => if decide (k = k') then v else counter_get k c'
  end.

(** [Counter(iterable)]: for each element, [c[elem] = c.get(elem, 0) + 1]. *)
Definition counter_add (c : pydict) (elem : string) : pydict :=
  dict_set elem (counter_get elem c + 1) c.

Definition Counter (l : list string) : pydict := foldl counter_add [] l.

(** [sorted(items, key=itemgetter(1), reverse=True)]: decreasing counts,
    items of equal count in their original order.  An item is put behind
    the items of the sorted tail that count strictly more. *)
Fixpoint insert_desc (x : string * nat) (l : pydict) : pydict :=
  match l with
  | [] => [x]
  | y :: l' => if decide (x.2 < y.2) then y :: insert_desc x l' else x :: l
  end.

Definition sorted_reverse (items : pydict) : pydict :=
  foldr insert_desc [] items.

(** [Counter.most_common(n)] is [heapq.nlargest(n, items, key=itemgetter(1))],
    which is [sorted(items, key=key, reverse=True)[:n]]. *)
Definition most_common (n : nat) (c : pydict) : pydict :=
  take n (sorted_reverse c).

(** [dict(pairs)] *)
Definition dict (pairs : list (string * nat)) : pydict :=
  foldl (λ d kv, dict_set kv.1 kv.2 d) [] pairs.

(** ** compute_stats *)

Record Stats := mkStats {
  protocol_counts : gmap string nat;
  top_ips : pydict;
  total_packets : nat;
  avg_packet_size : float
}.

Definition all_ips (df : DataFrame) : list string :=
  (Source_IP <$> df) ++ (Destination_IP <$> df).

Definition ip_counter (df : DataFrame) : pydict := Counter (all_ips df).

Definition compute_stats (df : option DataFrame) : option Stats :=
  match df with
  | None => None
  | Some df =>
      Some {| protocol_counts := to_dict (value_counts (Protocol <$> df));
              top_ips := dict (most_common 3 (ip_counter df));
              total_packets := length df;
              avg_packet_size := mean (Packet_Size <$> df) |}
  end.

(** Vocabulary of the properties: the rows of the table, its distinct
    addresses, and the place of a key in a sequence. *)
Definition row_count (df : DataFrame) : nat := length df.

Definition distinct_address_count (df : DataFrame) : nat :=
  length (remove_dups (all_ips df)).

Fixpoint first_index (a : string) (l : list string) : option nat :=
  match l with
  | [] => None
  | b :: l' => if decide (a = b) then Some 0 else S <$> first_index a l'
  end.

(** The rank of an address in a dict: the position of its key. *)
Definition rank (a : string) (d : pydict) : option nat := first_index a d.*1.

(** ** The world of a request: the input file, stdout, the saved figures *)

(** What [pd.read_csv] returns for a file it can read: a table with the
    four columns, or a table without one of them, kept by the name of the
    first column that the program asks for and does not find. *)
Inductive Frame :=
  | Columns (df : DataFrame)
  | Lacking (column : string).

(** What [pd.read_csv('network_data.csv')] finds: no file, a file it cannot
    read as a table (with the text of the exception it raises), a table
    with the four columns, or a table lacking one. *)
Inductive csv_file :=
  | FileMissing
  | FileUnparsable (e : string)
  | FileTable (df : DataFrame)
  | FileTableLacking (column : string).

(** The exceptions the loader tells apart: [FileNotFoundError], and any
    other [Exception], kept with its text [str(e)]. *)
Inductive exn :=
  | FileNotFoundError
  | OtherException (e : string).

Definition read_csv (f : csv_file) : exn + Frame :=
  match f with
  | FileMissing => inl FileNotFoundError
  | FileUnparsable e => inl (OtherException e)
  | FileTable df => inr (Columns df)
  | FileTableLacking column => inr (Lacking column)
  end.

(** A figure as the chart builders hand it to matplotlib: the labels and
    the numbers drawn.  Titles, colours and sizes are constants of the
    program and are left out. *)
Inductive Figure :=
  | BarChart (protocols : list string) (counts : list nat)
  | PieChart (ips : list string) (counts : list nat).

(** [stdout] holds the texts handed to [print], one entry per call, and
    [saved_figures] the figures matplotlib has drawn and saved. *)
Record World := mkWorld {
  network_data_csv : csv_file;
  stdout : list string;
  saved_figures : list Figure
}.

Definition IO (A : Type) : Type := World → A * World.

#[export] Instance IO_ret : MRet IO := λ A (a : A) w, (a, w).
#[export] Instance IO_bind : MBind IO :=
  λ A B (k : A → IO B) (m : IO A) w, let '(a, w') := m w in k a w'.

Definition print (line : string) : IO unit :=
  λ w, (tt, mkWorld (network_data_csv w) (stdout w ++ [line]) (saved_figures w)).

Definition try_read_csv : IO (exn + Frame) :=
  λ w, (read_csv (network_data_csv w), w).

(** ** load_network_data *)

Definition load_network_data : IO (option Frame) :=
  r ← try_read_csv ;
  match r with
  | inr df => mret (Some df)
  | inl FileNotFoundError =>
      _ ← print "Error: network_data.csv file not found!" ;
      mret None
  | inl (OtherException e) =>
      _ ← print ("Error loading CSV: " +:+ e) ;
      mret None
  end.

(** ** The chart builders and the routes *)

Inductive TemplateContext :=
  | ErrorContext (error_message : string)
  | DashboardContext (stats : Stats) (protocol_chart ip_chart : string).

Inductive Json :=
  | JsonError (error : string)
  | JsonStats (stats : option Stats).

(** What a route hands back to Flask.  [InternalServerError] stands for an
    exception escaping the route: the [KeyError] of [compute_stats] on a
    table lacking a column, or an exception raised by matplotlib. *)
Inductive Response :=
  | render_template (template : string) (context : TemplateContext)
  | jsonify (body : Json)
  | InternalServerError.

(** [compute_stats(df)] on what the loader returned.  [compute_stats]
    above is the function on the tables with the four columns; on a table
    lacking one, [df[column]] raises [KeyError] before anything is
    returned. *)
Definition compute_stats_loaded (df : option Frame) : string + option Stats :=
  match df with
  | None => inr None
  | Some (Columns df) => inr (compute_stats (Some df))
  | Some (Lacking column) => inl column
  end.

(** The figure each chart builder draws.  The bars are drawn in the
    enumeration order of the dict, which the [gmap] does not record:
    [map_to_list] stands for it. *)
Definition protocol_figure (protocol_counts : gmap string nat) : Figure :=
  let protocols := (map_to_list protocol_counts).*1 in
  let counts := (map_to_list protocol_counts).*2 in
  BarChart protocols counts.

Definition ip_figure (top_ips : pydict) : Figure :=
  let ips := top_ips.*1 in
  let counts := top_ips.*2 in
  PieChart ips counts.

Section Routes.

(** matplotlib drawing a figure ([plt.bar] or [plt.pie] and the labels),
    saving it as PNG and [base64.b64encode(...).decode()]: the text of the
    image, or [None] when matplotlib raises an exception on the figure. *)
Variable png_base64 : Figure → option string.

(** The figure is saved when it could be drawn. *)
Definition savefig (fig : Figure) : IO (option string) :=
  λ w, match png_base64 fig with
       | Some plot_url =>
           (Some plot_url,
            mkWorld (network_data_csv w) (stdout w) (saved_figures w ++ [fig]))
       | None => (None, w)
       end.

Definition create_protocol_chart (protocol_counts : gmap string nat)
    : IO (option string) :=
  savefig (protocol_figure protocol_counts).

Definition create_ip_chart (top_ips : pydict) : IO (option string) :=
  savefig (ip_figure top_ips).

Definition dashboard : IO Response :=
  df ← load_network_data ;
  match df with
  | None =>
      mret (render_template "error.html"
             (ErrorContext "Could not load network_data.csv file. Please make sure it exists in the project directory."))
  | Some _ =>
      match compute_stats_loaded df with
      | inl _ | inr None => mret InternalServerError
      | inr (Some stats) =>
          protocol_chart ← create_protocol_chart (protocol_counts stats) ;
          match protocol_chart with
          | None => mret InternalServerError
          | Some protocol_chart =>
              ip_chart ← create_ip_chart (top_ips stats) ;
              match ip_chart with
              | None => mret InternalServerError
              | Some ip_chart =>
                  mret (render_template "dashboard.html"
                         (DashboardContext stats protocol_chart ip_chart))
              end
          end
      end
  end.

Definition api_stats : IO Response :=
  df ← load_network_data ;
  match df with
  | None => mret (jsonify (JsonError "Could not load data"))
  | Some _ =>
      match compute_stats_loaded df with
      | inl _ => mret InternalServerError
      | inr stats => mret (jsonify (JsonStats stats))
      end
  end.

End Routes.

(** The table of the worked example. *)
Definition example_table : DataFrame :=
  [ mkRow (Some "TCP") "1.1.1.1" "2.2.2.2" 100;
    mkRow (Some "UDP") "1.1.1.1" "3.3.3.3" 200 ].

(** The number of cells of a column that hold a given address. *)
Definition occurrences (a : string) (col : list string) : nat :=
  length (filter (λ x, x = a) col).

(** The top addresses of the report of a table. *)
Definition top_addresses (df : DataFrame) : pydict :=
  from_option top_ips [] (compute_stats (Some df)).

(** The rows whose [Protocol] cell is missing. *)
Definition missing_protocols (df : DataFrame) : nat :=
  length (filter (λ row, Protocol row = None) df).

(** The invariant between the protocol counts, the number of packets and
    the rows of a table. *)
Definition counts_sum_to_rows (df : DataFrame) : Prop :=
  ∃ stats, compute_stats (Some df) = Some stats
    ∧ sum_values (protocol_counts stats) = total_packets stats
    ∧ total_packets stats = row_count df.

(** A table whose second row has an empty [Protocol] field. *)
Definition table_missing_protocol : DataFrame :=
  [ mkRow (Some "TCP") "1.1.1.1" "2.2.2.2" 100;
    mkRow None "1.1.1.1" "3.3.3.3" 200 ].

(** What a caller of the loader can tell apart: the values it returns. *)
Definition returned {A} (r : A * World) : A := r.1.

Definition distinguishable_by_caller (f1 f2 : csv_file) : Prop :=
  ∀ out figs,
    returned (load_network_data (mkWorld f1 out figs))
    ≠ returned (load_network_data (mkWorld f2 out figs)).

(** * Properties *)

(** ** Protocol counts *)

Section ProtocolCounts.

Implicit Types (m : gmap string nat) (p : string) (col : list string).

Lemma sum_values_empty : sum_values ∅ = 0.
Proof. unfold sum_values, values. by rewrite map_to_list_empty. Qed.

Lemma sum_values_insert_fresh m p n :
  m !! p = None → sum_values (<[p := n]> m) = n + sum_values m.
Proof.
  intros Hp. unfold sum_values, values.
  by rewrite (map_to_list_insert m p n Hp).
Qed.

Lemma sum_values_lookup m p n :
  m !! p = Some n → sum_values m = n + sum_values (delete p m).
Proof.
  intros Hp. unfold sum_values, values.
  by rewrite <- (map_to_list_delete m p n Hp).
Qed.

(** Counting one more row of protocol [p] adds one to the sum. *)
Lemma sum_values_count_row m p :
  sum_values (<[p := S (default 0 (m !! p))]> m) = S (sum_values m).
Proof.
  destruct (m !! p) as [n|] eqn:Hp; simpl.
  - rewrite (sum_values_lookup m p n Hp), <- insert_delete_eq.
    rewrite sum_values_insert_fresh by apply lookup_delete_eq. done.
  - by rewrite sum_values_insert_fresh.
Qed.

Lemma sum_values_foldl col : ∀ m,
  sum_values (foldl (λ m p, <[p := S (default 0 (m !! p))]> m) m col)
  = sum_values m + length col.
Proof.
  induction col as [|p col IH]; intros m; simpl; [lia|].
  rewrite IH, sum_values_count_row. lia.
Qed.

Lemma sum_values_count_values col :
  sum_values (count_values col) = length col.
Proof.
  unfold count_values. by rewrite sum_values_foldl, sum_values_empty.
Qed.

Lemma sum_values_value_counts (cells : list (option string)) :
  sum_values (value_counts cells) = length (dropna cells).
Proof. apply sum_values_count_values. Qed.

(** Every row has its [Protocol] cell present or missing. *)
Lemma present_plus_missing (df : DataFrame) :
  length (dropna (Protocol <$> df)) + missing_protocols df = length df.
Proof.
  unfold missing_protocols, dropna.
  unfold DataFrame in *.
  induction df as [|row df IH]; [done|].
  rewrite fmap_cons, filter_cons.
  destruct (Protocol row) as [p|] eqn:Hp; cbn [omap id].
  - rewrite decide_False by done. cbn [length]. rewrite <- IH. reflexivity.
  - rewrite decide_True by done. cbn [length]. rewrite <- IH.
    by rewrite Nat.add_succ_r.
Qed.

End ProtocolCounts.

(** C1, as stated, fails: with a missing [Protocol] cell the counts add
    up to fewer than the packets (here 1 against 2). *)
Lemma protocol_counts_sum_missing_cell :
  ¬ counts_sum_to_rows table_missing_protocol.
Proof.
  intros (stats & [= <-] & Hsum & _). vm_compute in Hsum. discriminate Hsum.
Qed.

(** C1, amended: for every table, [total_packets] is the number of rows,
    and the values of [protocol_counts] add up to the number of rows whose
    [Protocol] cell is present: together with the rows whose cell is
    missing they make [total_packets]. *)
Theorem protocol_counts_sum_present_rows (df : DataFrame) :
  ∃ stats, compute_stats (Some df) = Some stats
    ∧ sum_values (protocol_counts stats)
      = length (dropna (Protocol <$> df))
    ∧ sum_values (protocol_counts stats) + missing_protocols df
      = total_packets stats
    ∧ total_packets stats = row_count df.
Proof.
  eexists; split; [reflexivity|]. simpl. unfold to_dict, row_count.
  rewrite sum_values_value_counts. split_and!; [done | | done].
  apply present_plus_missing.
Qed.

(** ** The absent table, the empty table, the worked example *)

(** C10: applied to the loader's failure value [None], the aggregator
    returns [None]: no error is raised and no report is built. *)
Theorem compute_stats_None : compute_stats None = None.
Proof. reflexivity. Qed.

(** C2: on the empty table the report has no packets, no protocol and no
    top address, and its average is the float NaN that the mean of an empty
    column evaluates to, stored in the report like any other number. *)
Theorem compute_stats_empty_table :
  ∃ stats, compute_stats (Some []) = Some stats
    ∧ total_packets stats = 0
    ∧ protocol_counts stats = ∅
    ∧ top_ips stats = []
    ∧ avg_packet_size stats = nan
    ∧ PrimFloat.is_nan (avg_packet_size stats) = true.
Proof. eexists; split; [reflexivity|]. repeat split. Qed.

(** C8: the report of the two-row table TCP 1.1.1.1 -> 2.2.2.2 (100),
    UDP 1.1.1.1 -> 3.3.3.3 (200): one packet per protocol, two packets,
    mean size 150.0, and 1.1.1.1 first among the top addresses with 2. *)
Theorem compute_stats_example_table :
  ∃ stats, compute_stats (Some example_table) = Some stats
    ∧ protocol_counts stats = {[ "TCP" := 1; "UDP" := 1 ]}
    ∧ total_packets stats = 2
    ∧ avg_packet_size stats = 150%float
    ∧ head (top_ips stats) = Some ("1.1.1.1", 2).
Proof.
  eexists; split; [reflexivity|]. simpl.
  repeat split; vm_compute; reflexivity.
Qed.

(** ** The loader and the routes on a missing or unreadable file *)

Lemma load_network_data_missing out figs :
  load_network_data (mkWorld FileMissing out figs)
  = (None, mkWorld FileMissing
             (out ++ ["Error: network_data.csv file not found!"]) figs).
Proof. reflexivity. Qed.

Lemma load_network_data_unparsable e out figs :
  load_network_data (mkWorld (FileUnparsable e) out figs)
  = (None, mkWorld (FileUnparsable e)
             (out ++ ["Error loading CSV: " +:+ e]) figs).
Proof. reflexivity. Qed.

Lemma load_network_data_table df out figs :
  load_network_data (mkWorld (FileTable df) out figs)
  = (Some (Columns df), mkWorld (FileTable df) out figs).
Proof. reflexivity. Qed.

(** C3, as stated, fails: a caller gets the same value from the loader
    whether the file is missing or cannot be parsed. *)
Lemma load_failures_not_distinguishable :
  ¬ distinguishable_by_caller FileMissing
      (FileUnparsable "Error tokenizing data").
Proof. intros H. by apply (H [] []). Qed.

(** C3, amended: for a missing file and for an unparsable file alike the
    loader returns [None]; the two failures differ only in the line
    printed, which is never the same for both. *)
Theorem load_network_data_failures (e : string) (out : list string)
    (figs : list Figure) :
  let missing := load_network_data (mkWorld FileMissing out figs) in
  let unparsable := load_network_data (mkWorld (FileUnparsable e) out figs) in
  returned missing = None
  ∧ returned unparsable = None
  ∧ stdout missing.2 = (out ++ ["Error: network_data.csv file not found!"])
  ∧ stdout unparsable.2 = (out ++ ["Error loading CSV: " +:+ e])
  ∧ stdout missing.2 ≠ stdout unparsable.2.
Proof.
  simpl. repeat split. intros H. apply app_inv_head in H. discriminate H.
Qed.

(** C7: when the file does not exist the loader returns [None] after
    reporting the missing file, the dashboard route answers with the error
    page and its message only, the API route with the error object only,
    and no figure is saved. *)
Theorem routes_file_missing (png_base64 : Figure → option string)
    (out : list string) (figs : list Figure) :
  let w := mkWorld FileMissing out figs in
  let w' := mkWorld FileMissing
              (out ++ ["Error: network_data.csv file not found!"]) figs in
  load_network_data w = (None, w')
  ∧ dashboard png_base64 w =
      (render_template "error.html"
         (ErrorContext "Could not load network_data.csv file. Please make sure it exists in the project directory."),
       w')
  ∧ api_stats w = (jsonify (JsonError "Could not load data"), w')
  ∧ saved_figures (dashboard png_base64 w).2 = saved_figures w.
Proof. repeat split. Qed.

Lemma api_stats_table df out figs :
  api_stats (mkWorld (FileTable df) out figs)
  = (jsonify (JsonStats (compute_stats (Some df))),
     mkWorld (FileTable df) out figs).
Proof. reflexivity. Qed.

(** ** Dicts in insertion order *)

Section Dicts.

Implicit Types (k a b : string) (v n : nat) (c d : pydict) (l : list string).

Lemma counter_get_dict_set a k v c :
  counter_get a (dict_set k v c) = if decide (a = k) then v else counter_get a c.
Proof.
  induction c as [|[k' v'] c IH]; simpl.
  - done.
  - destruct (decide (k = k')) as [->|Hk]; simpl.
    + destruct (decide (a = k')); done.
    + rewrite IH. destruct (decide (a = k')) as [->|]; [|done].
      by rewrite decide_False.
Qed.

Lemma dict_set_keys k v c :
  (dict_set k v c).*1 = if decide (k ∈ c.*1) then c.*1 else c.*1 ++ [k].
Proof.
  induction c as [|[k' v'] c IH].
  - case_decide as Hin; [by apply elem_of_nil in Hin | done].
  - cbn [dict_set]. destruct (decide (k = k')) as [->|Hk].
    + rewrite decide_True; [done | rewrite fmap_cons; left].
    + rewrite !fmap_cons, IH. cbn [fst].
      destruct (decide (k ∈ c.*1)) as [Hin|Hin].
      * rewrite decide_True; [done | by right].
      * rewrite decide_False; [done|]. rewrite elem_of_cons. tauto.
Qed.

Lemma dict_set_fresh k v c : k ∉ c.*1 → dict_set k v c = c ++ [(k, v)].
Proof.
  induction c as [|[k' v'] c IH]; simpl; [done|].
  rewrite not_elem_of_cons. intros [Hk Hin].
  rewrite decide_False by done. by rewrite IH.
Qed.

Lemma counter_get_absent a c : a ∉ c.*1 → counter_get a c = 0.
Proof.
  induction c as [|[k v] c IH]; simpl; [done|].
  rewrite not_elem_of_cons. intros [Hk Hin]. by rewrite decide_False, IH.
Qed.

(** In a dict each key is held once, so an item holds the value of its key. *)
Lemma counter_get_item a n c : NoDup c.*1 → (a, n) ∈ c → counter_get a c = n.
Proof.
  induction c as [|[k v] c IH]; simpl.
  - intros _ H. by apply elem_of_nil in H.
  - rewrite NoDup_cons, elem_of_cons. intros [Hk Hnd] [[= -> ->]|Hin].
    + by rewrite decide_True.
    + rewrite decide_False; [by apply IH|].
      intros ->. apply Hk. by apply (list_elem_of_fmap_2 fst _ (k, n)).
Qed.

(** [dict] of items with distinct keys keeps them all, in their order. *)
Lemma dict_foldl_distinct (pairs : pydict) : ∀ d,
  NoDup (d ++ pairs).*1 →
  foldl (λ d kv, dict_set kv.1 kv.2 d) d pairs = d ++ pairs.
Proof.
  induction pairs as [|[k v] pairs IH]; intros d Hnd; simpl.
  - by rewrite app_nil_r.
  - rewrite dict_set_fresh.
    + rewrite IH; rewrite <- app_assoc; done.
    + rewrite fmap_app, NoDup_app in Hnd. destruct Hnd as (_ & Hd & _).
      intros Hin. apply (Hd k Hin). left.
Qed.

Lemma dict_distinct (pairs : pydict) : NoDup pairs.*1 → dict pairs = pairs.
Proof. intros Hnd. unfold dict. by rewrite dict_foldl_distinct. Qed.

End Dicts.

(** ** Counter: what it counts, and the order of its keys *)

Section Counting.

Implicit Types (k a b : string) (v n : nat) (c d : pydict) (l : list string).

Lemma occurrences_app a l1 l2 :
  occurrences a (l1 ++ l2) = occurrences a l1 + occurrences a l2.
Proof. unfold occurrences. by rewrite filter_app, length_app. Qed.

Lemma occurrences_cons a k l :
  occurrences a (k :: l) = (if decide (a = k) then 1 else 0) + occurrences a l.
Proof.
  unfold occurrences. rewrite filter_cons.
  destruct (decide (k = a)) as [->|Hk].
  - by rewrite decide_True.
  - rewrite decide_False; [done | congruence].
Qed.

Lemma counter_get_foldl a l : ∀ c,
  counter_get a (foldl counter_add c l) = counter_get a c + occurrences a l.
Proof.
  induction l as [|k l IH]; intros c; simpl.
  - unfold occurrences. simpl. lia.
  - rewrite IH, occurrences_cons. unfold counter_add.
    rewrite counter_get_dict_set.
    destruct (decide (a = k)) as [->|]; lia.
Qed.

Lemma counter_get_Counter a l : counter_get a (Counter l) = occurrences a l.
Proof. unfold Counter. apply (counter_get_foldl a l []). Qed.

(** Counting never moves a key: the keys present stay in front. *)
Lemma counter_keys_prefix l : ∀ c,
  ∃ ks, (foldl counter_add c l).*1 = c.*1 ++ ks.
Proof.
  induction l as [|k l IH]; intros c; simpl.
  - exists []. by rewrite app_nil_r.
  - destruct (IH (counter_add c k)) as [ks ->]. unfold counter_add.
    rewrite dict_set_keys. destruct (decide (k ∈ c.*1)).
    + by exists ks.
    + exists (k :: ks). by rewrite <- app_assoc.
Qed.

Lemma counter_keys_elem a l : ∀ c,
  a ∈ (foldl counter_add c l).*1 ↔ a ∈ c.*1 ∨ a ∈ l.
Proof.
  induction l as [|k l IH]; intros c; simpl.
  - rewrite elem_of_nil. tauto.
  - rewrite IH. unfold counter_add. rewrite dict_set_keys, elem_of_cons.
    destruct (decide (k ∈ c.*1)) as [Hin|Hin].
    + split; [tauto|]. intros [?|[->|?]]; tauto.
    + rewrite elem_of_app, list_elem_of_singleton. tauto.
Qed.

Lemma counter_keys_NoDup l : ∀ c,
  NoDup c.*1 → NoDup (foldl counter_add c l).*1.
Proof.
  induction l as [|k l IH]; intros c Hnd; simpl; [done|].
  apply IH. unfold counter_add. rewrite dict_set_keys.
  destruct (decide (k ∈ c.*1)) as [Hin|Hin]; [done|].
  apply NoDup_app. split_and!; [done | | apply NoDup_singleton].
  intros x Hx ->%list_elem_of_singleton. done.
Qed.

Lemma Counter_keys_elem a l : a ∈ (Counter l).*1 ↔ a ∈ l.
Proof.
  unfold Counter. rewrite (counter_keys_elem a l []). simpl.
  rewrite elem_of_nil. tauto.
Qed.

Lemma Counter_keys_NoDup l : NoDup (Counter l).*1.
Proof. apply (counter_keys_NoDup l []). simpl. apply NoDup_nil_2. Qed.

Lemma Counter_length l : length (Counter l) = length (remove_dups l).
Proof.
  rewrite <- (length_fmap fst). apply Permutation_length, NoDup_Permutation.
  - apply Counter_keys_NoDup.
  - apply NoDup_remove_dups.
  - intros x. by rewrite Counter_keys_elem, elem_of_remove_dups.
Qed.

End Counting.

(** ** The stable sort behind [most_common] *)

Section Sorting.

Implicit Types (x y : string * nat) (c d : pydict).

Lemma insert_desc_Permutation x d : insert_desc x d ≡ₚ x :: d.
Proof.
  induction d as [|y d IH]; simpl; [done|].
  case_decide; [|done]. rewrite IH. apply Permutation_swap.
Qed.

Lemma sorted_reverse_Permutation c : sorted_reverse c ≡ₚ c.
Proof.
  induction c as [|x c IH]; simpl; [done|].
  by rewrite insert_desc_Permutation, IH.
Qed.

Lemma sorted_reverse_length c : length (sorted_reverse c) = length c.
Proof. apply Permutation_length, sorted_reverse_Permutation. Qed.

(** Inserting an item leaves the others in their order. *)
Lemma insert_desc_sublist x d : d `sublist_of` insert_desc x d.
Proof.
  induction d as [|y d IH]; simpl.
  - apply sublist_nil_l.
  - case_decide; [by apply sublist_skip | by apply sublist_cons].
Qed.

(** The inserted item lands in front of every item that counts no more. *)
Lemma insert_desc_before x y d :
  y ∈ d → (y.2 ≤ x.2)%nat → [x; y] `sublist_of` insert_desc x d.
Proof.
  induction d as [|z d IH]; simpl; intros Hin Hle.
  - by apply elem_of_nil in Hin.
  - case_decide as Hlt.
    + apply sublist_cons, IH; [|done].
      apply elem_of_cons in Hin as [->|Hin]; [lia | done].
    + by apply sublist_skip, singleton_sublist_l.
Qed.

(** Stability: an item stays in front of the later items that count no
    more than it does; among equal counts the original order is kept. *)
Lemma sorted_reverse_stable x y c :
  [x; y] `sublist_of` c → (y.2 ≤ x.2)%nat → [x; y] `sublist_of` sorted_reverse c.
Proof.
  induction c as [|z c IH]; simpl; intros Hsub Hle.
  - by apply sublist_nil_r in Hsub.
  - apply sublist_cons_r in Hsub as [Hsub|(l' & [= <- <-] & Hy)].
    + etrans; [by apply IH | apply insert_desc_sublist].
    + apply insert_desc_before; [|done].
      rewrite sorted_reverse_Permutation. by apply singleton_sublist_l.
Qed.

(** The counts decrease along the sorted items. *)
Lemma insert_desc_decreasing x d :
  StronglySorted (λ y z, (z.2 ≤ y.2)%nat) d →
  StronglySorted (λ y z, (z.2 ≤ y.2)%nat) (insert_desc x d).
Proof.
  induction 1 as [|y d Hd IH Hall]; simpl.
  - by repeat constructor.
  - case_decide as Hlt.
    + constructor; [done|]. rewrite insert_desc_Permutation.
      constructor; [lia | done].
    + constructor; [by constructor|]. constructor; [lia|].
      eapply Forall_impl; [exact Hall|]. simpl. lia.
Qed.

Lemma sorted_reverse_decreasing c :
  StronglySorted (λ y z, (z.2 ≤ y.2)%nat) (sorted_reverse c).
Proof.
  induction c as [|x c IH]; simpl; [constructor|].
  by apply insert_desc_decreasing.
Qed.

End Sorting.

(** ** The place of a key in a sequence *)

Section FirstIndex.

Implicit Types (a b : string) (l ks : list string).

Lemma first_index_None a l : first_index a l = None ↔ a ∉ l.
Proof.
  induction l as [|k l IH]; simpl.
  - split; [intros _; apply not_elem_of_nil | done].
  - rewrite not_elem_of_cons. case_decide as Hk.
    + split; [done | tauto].
    + rewrite fmap_None, IH. tauto.
Qed.

Lemma first_index_lt a l i : first_index a l = Some i → i < length l.
Proof.
  revert i. induction l as [|k l IH]; simpl; intros i; [done|].
  case_decide.
  - intros [= <-]. lia.
  - intros (i' & Hi' & ->)%fmap_Some. apply IH in Hi'. lia.
Qed.

Lemma first_index_app a l1 l2 :
  first_index a (l1 ++ l2) =
    match first_index a l1 with
    | Some i => Some i
    | None => (λ i, length l1 + i) <$> first_index a l2
    end.
Proof.
  induction l1 as [|k l1 IH]; simpl.
  - by destruct (first_index a l2).
  - case_decide; [done|]. rewrite IH.
    destruct (first_index a l1); simpl; [done|].
    by destruct (first_index a l2).
Qed.

Lemma first_index_take a l : ∀ m,
  first_index a (take m l) =
    match first_index a l with
    | Some i => if decide (i < m) then Some i else None
    | None => None
    end.
Proof.
  induction l as [|k l IH]; intros [|m]; simpl; try done.
  - by destruct (if decide (a = k) then _ else _).
  - case_decide.
    + rewrite decide_True; [done | lia].
    + rewrite IH. destruct (first_index a l) as [i|]; simpl; [|done].
      destruct (decide (i < m)), (decide (S i < S m)); first [done | lia].
Qed.

Lemma first_index_split a l i :
  first_index a l = Some i →
  ∃ l1 l2, l = l1 ++ a :: l2 ∧ (a ∉ l1) ∧ length l1 = i.
Proof.
  revert i. induction l as [|k l IH]; simpl; intros i; [done|].
  case_decide as Hk.
  - intros [= <-]. subst k. exists [], l. split_and!; [done | | done].
    apply not_elem_of_nil.
  - intros (i' & Hi' & ->)%fmap_Some.
    destruct (IH _ Hi') as (l1 & l2 & -> & Hnin & <-).
    exists (k :: l1), l2. split_and!; [done | | done].
    rewrite not_elem_of_cons. tauto.
Qed.

(** In a sequence without repetition, a key listed before another one has
    the smaller index, also among the first [m] items. *)
Lemma first_index_sublist_take a b ks m rb :
  NoDup ks → [a; b] `sublist_of` ks →
  first_index b (take m ks) = Some rb →
  ∃ ra, first_index a (take m ks) = Some ra ∧ ra < rb.
Proof.
  intros Hnd (k1 & k2 & -> & Hb%singleton_sublist_l)%sublist_cons_l.
  apply NoDup_app in Hnd as (_ & Hk1 & [Ha Hk2]%NoDup_cons).
  assert (a ∉ k1) as Hak1. { intros Hin. apply (Hk1 a Hin). left. }
  assert (b ∉ k1) as Hbk1. { intros Hin. apply (Hk1 b Hin). by right. }
  assert (b ≠ a) as Hba by (by intros ->).
  apply first_index_None in Hak1, Hbk1.
  rewrite !first_index_take, !first_index_app, Hak1, Hbk1. simpl.
  destruct (decide (b = a)); [done|]. destruct (decide (a = a)); [|done].
  destruct (first_index b k2) as [ib|]; simpl; [|done].
  case_decide; [|done]. intros [= <-].
  exists (length k1 + 0). rewrite decide_True by lia. split; [done | lia].
Qed.

End FirstIndex.

(** ** The top addresses *)

Section TopAddresses.

Implicit Types (df : DataFrame) (a b : string) (c : pydict) (l : list string).

Lemma sorted_keys_NoDup l : NoDup (sorted_reverse (Counter l)).*1.
Proof.
  rewrite (sorted_reverse_Permutation (Counter l)). apply Counter_keys_NoDup.
Qed.

Lemma top_addresses_eq df :
  top_addresses df = take 3 (sorted_reverse (ip_counter df)).
Proof.
  unfold top_addresses. simpl. unfold most_common. apply dict_distinct.
  rewrite fmap_take. eapply sublist_NoDup; [|apply sublist_take].
  apply sorted_keys_NoDup.
Qed.

Lemma compute_stats_top_ips df :
  ∃ stats, compute_stats (Some df) = Some stats
    ∧ top_ips stats = top_addresses df.
Proof. by eexists. Qed.

(** Every item of the top addresses is an item of the counter. *)
Lemma top_addresses_item df a n :
  (a, n) ∈ top_addresses df → (a, n) ∈ ip_counter df.
Proof.
  rewrite top_addresses_eq. intros Hin%subseteq_take.
  by rewrite sorted_reverse_Permutation in Hin.
Qed.

Lemma occurrences_elem a l : a ∈ l → (1 ≤ occurrences a l)%nat.
Proof.
  intros Hin. unfold occurrences.
  assert (a ∈ filter (λ x, x = a) l) as Hf by (by apply list_elem_of_filter).
  destruct (filter _ l); [by apply elem_of_nil in Hf | simpl; lia].
Qed.

(** The keys of a counter come in the order in which they are first seen. *)
Lemma Counter_keys_before l a b i j :
  first_index a l = Some i → first_index b l = Some j → i < j →
  [a; b] `sublist_of` (Counter l).*1.
Proof.
  intros (l1 & l2 & -> & Ha & <-)%first_index_split Hb Hlt.
  rewrite first_index_app in Hb.
  destruct (first_index b l1) as [k|] eqn:Hb1.
  { injection Hb as ->. apply first_index_lt in Hb1. lia. }
  apply first_index_None in Hb1. simpl in Hb.
  destruct (decide (b = a)) as [->|Hba]; [injection Hb; lia|].
  assert (b ∈ l2) as Hb2.
  { destruct (first_index b l2) eqn:E; [|done].
    apply dec_stable. intros Hn. apply first_index_None in Hn. congruence. }
  unfold Counter. rewrite cons_middle, app_assoc, foldl_app.
  set (c1 := foldl counter_add [] (l1 ++ [a])).
  destruct (counter_keys_prefix l2 c1) as [ks Hks].
  assert (a ∈ c1.*1) as Ha1.
  { unfold c1. apply counter_keys_elem. right. apply elem_of_app. right. left. }
  assert (b ∉ c1.*1) as Hbn.
  { unfold c1. rewrite counter_keys_elem, elem_of_app, list_elem_of_singleton.
    simpl. rewrite elem_of_nil. tauto. }
  assert (b ∈ (foldl counter_add c1 l2).*1) as Hbin.
  { apply counter_keys_elem. by right. }
  rewrite Hks in Hbin |- *. apply elem_of_app in Hbin as [?|Hbin]; [done|].
  apply (sublist_app [a] _ [b]); by apply singleton_sublist_l.
Qed.

(** Two keys in that order are the keys of two items in that order. *)
Lemma keys_sublist_items a b c :
  [a; b] `sublist_of` c.*1 → ∃ n m, [(a, n); (b, m)] `sublist_of` c.
Proof.
  intros (k1 & k2 & Hc & Hb%singleton_sublist_l)%sublist_cons_l.
  apply fmap_app_inv in Hc as (c1 & c2 & -> & Hc2 & ->).
  symmetry in Hc2.
  apply fmap_cons_inv in Hc2 as ([a' n] & c2' & -> & -> & ->).
  apply list_elem_of_fmap in Hb as ([b' m] & -> & Hb).
  exists n, m. apply sublist_inserts_l, sublist_skip.
  by apply singleton_sublist_l.
Qed.

End TopAddresses.

(** C9: the count that ranks an address is the number of its occurrences
    in the Source IP column plus the number of its occurrences in the
    Destination IP column; this is the count the top addresses carry, and
    a row from an address to itself counts 2 for it. *)
Theorem ip_count_source_plus_destination (df : DataFrame) (a : string) :
  counter_get a (ip_counter df)
    = occurrences a (Source_IP <$> df) + occurrences a (Destination_IP <$> df)
  ∧ Forall (λ item,
      item.2 = occurrences item.1 (Source_IP <$> df)
               + occurrences item.1 (Destination_IP <$> df))
      (top_addresses df)
  ∧ ∀ p size, counter_get a (ip_counter [mkRow p a a size]) = 2.
Proof.
  assert (∀ t x, counter_get x (ip_counter t)
    = occurrences x (Source_IP <$> t) + occurrences x (Destination_IP <$> t))
    as Hcount.
  { intros t x. unfold ip_counter, all_ips.
    by rewrite counter_get_Counter, occurrences_app. }
  split_and!.
  - apply Hcount.
  - apply Forall_forall. intros [x n] Hin%top_addresses_item. simpl.
    rewrite <- Hcount. symmetry. apply counter_get_item; [|done].
    apply Counter_keys_NoDup.
  - intros p size. rewrite Hcount. simpl.
    rewrite !occurrences_cons, !decide_True by done. done.
Qed.


(** C4: when two addresses have equal combined counts, the one first met
    earlier in the sequence of all Source IP cells followed by all
    Destination IP cells ranks higher: whenever the later one is among the
    top addresses, the earlier one is too, at a smaller position. *)
Theorem top_ips_ties_first_seen (df : DataFrame) (a b : string)
    (i j rb : nat) :
  first_index a (all_ips df) = Some i →
  first_index b (all_ips df) = Some j →
  i < j →
  counter_get a (ip_counter df) = counter_get b (ip_counter df) →
  rank b (top_addresses df) = Some rb →
  ∃ ra, rank a (top_addresses df) = Some ra ∧ ra < rb.
Proof.
  intros Ha Hb Hlt Hcount. unfold rank.
  rewrite top_addresses_eq, fmap_take.
  apply first_index_sublist_take; [apply sorted_keys_NoDup|].
  destruct (keys_sublist_items a b (ip_counter df)) as (n & m & Hsub).
  { by apply (Counter_keys_before _ _ _ i j). }
  assert (counter_get a (ip_counter df) = n) as Hn.
  { apply counter_get_item; [apply Counter_keys_NoDup|].
    eapply elem_of_sublist; [|exact Hsub]. left. }
  assert (counter_get b (ip_counter df) = m) as Hm.
  { apply counter_get_item; [apply Counter_keys_NoDup|].
    eapply elem_of_sublist; [|exact Hsub]. right. left. }
  apply (sorted_reverse_stable (a, n) (b, m)) in Hsub; [|simpl; lia].
  by apply (fmap_sublist fst) in Hsub.
Qed.

Lemma top_ips_ties_first_seen_witness :
  ∃ ra, rank "2.2.2.2" (top_addresses example_table) = Some ra ∧ ra < 2.
Proof.
  apply (top_ips_ties_first_seen example_table "2.2.2.2" "3.3.3.3" 2 3 2);
    [reflexivity | reflexivity | lia | reflexivity | reflexivity].
Defined.

(** ** Worked examples *)

(** Four addresses seen once each: the first three met are kept, the two
    sources before the destinations. *)
Example top_ips_four_singletons :
  top_addresses [ mkRow (Some "TCP") "10.0.0.1" "10.0.0.2" 60;
                  mkRow (Some "TCP") "10.0.0.3" "10.0.0.4" 60 ]
  = [("10.0.0.1", 1); ("10.0.0.3", 1); ("10.0.0.2", 1)].
Proof. reflexivity. Qed.

(** A later address with a larger count overtakes the earlier ones. *)
Example top_ips_larger_count_first :
  top_addresses [ mkRow (Some "TCP") "10.0.0.1" "10.0.0.9" 60;
                  mkRow (Some "UDP") "10.0.0.2" "10.0.0.9" 40;
                  mkRow (Some "UDP") "10.0.0.3" "10.0.0.3" 40 ]
  = [("10.0.0.3", 2); ("10.0.0.9", 2); ("10.0.0.1", 1)].
Proof. reflexivity. Qed.

(** The dashboard of the example table, when matplotlib draws both
    figures, saves the bar chart, then the pie chart, and prints nothing. *)
Example dashboard_example_table :
  ∃ stats bar pie,
    dashboard (λ _, Some "iVBORw0KGgo=")
      (mkWorld (FileTable example_table) [] [])
    = (render_template "dashboard.html"
         (DashboardContext stats "iVBORw0KGgo=" "iVBORw0KGgo="),
       mkWorld (FileTable example_table) [] [bar; pie])
    ∧ pie = PieChart ["1.1.1.1"; "2.2.2.2"; "3.3.3.3"] [2; 1; 1].
Proof. by eexists _, _, _. Qed.

(** * Further properties of the report *)

(** ** The count of each protocol *)

Section ProtocolLookup.

Implicit Types (m : gmap string nat) (p k : string) (col : list string).

Lemma occurrences_not_elem p col : p ∉ col → occurrences p col = 0.
Proof.
  induction col as [|k col IH]; [done|].
  rewrite not_elem_of_cons, occurrences_cons. intros [Hk Hin].
  by rewrite decide_False, IH.
Qed.

Lemma occurrences_Permutation p col col' :
  col ≡ₚ col' → occurrences p col = occurrences p col'.
Proof. intros Hp. unfold occurrences. by rewrite Hp. Qed.

Lemma count_values_foldl_lookup col : ∀ m p,
  foldl (λ m p, <[p := S (default 0 (m !! p))]> m) m col !! p
  = match m !! p with
    | Some n => Some (n + occurrences p col)
    | None => if decide (p ∈ col) then Some (occurrences p col) else None
    end.
Proof.
  induction col as [|k col IH]; intros m p; cbn [foldl].
  - destruct (m !! p) as [n|]; [by rewrite Nat.add_0_r|].
    case_decide as Hin; [by apply elem_of_nil in Hin | done].
  - rewrite IH, occurrences_cons. destruct (decide (p = k)) as [->|Hk].
    + rewrite lookup_insert_eq.
      destruct (m !! k) as [n|]; simpl; [f_equal; lia|].
      rewrite decide_True; [done | left].
    + rewrite lookup_insert_ne by done.
      destruct (m !! p) as [n|]; [done|].
      destruct (decide (p ∈ col)) as [Hin|Hin].
      * rewrite decide_True; [done | by right].
      * rewrite decide_False; [done|]. rewrite elem_of_cons. tauto.
Qed.

Lemma count_values_lookup col p :
  count_values col !! p
  = if decide (p ∈ col) then Some (occurrences p col) else None.
Proof.
  unfold count_values. by rewrite count_values_foldl_lookup, lookup_empty.
Qed.

Lemma count_values_count col p :
  default 0 (count_values col !! p) = occurrences p col.
Proof.
  rewrite count_values_lookup. case_decide as Hin; simpl; [done|].
  by rewrite occurrences_not_elem.
Qed.

Lemma count_values_keys col p :
  p ∈ (map_to_list (count_values col)).*1 ↔ p ∈ col.
Proof.
  rewrite list_elem_of_fmap. split.
  - intros ([k n] & -> & Hin%elem_of_map_to_list). simpl.
    rewrite count_values_lookup in Hin. by case_decide.
  - intros Hin. exists (p, occurrences p col). split; [done|].
    apply elem_of_map_to_list. rewrite count_values_lookup.
    by rewrite decide_True.
Qed.

Lemma count_values_size col :
  size (count_values col) = length (remove_dups col).
Proof.
  rewrite <- length_map_to_list, <- (length_fmap fst).
  apply Permutation_length, NoDup_Permutation.
  - apply NoDup_fst_map_to_list.
  - apply NoDup_remove_dups.
  - intros p. by rewrite count_values_keys, elem_of_remove_dups.
Qed.

Lemma count_values_Permutation col col' :
  col ≡ₚ col' → count_values col = count_values col'.
Proof.
  intros Hp. apply map_eq. intros p. rewrite !count_values_lookup.
  rewrite (occurrences_Permutation p col col' Hp).
  destruct (decide (p ∈ col)) as [Hin|Hin].
  - rewrite decide_True; [done | by rewrite <- Hp].
  - rewrite decide_False; [done | by rewrite <- Hp].
Qed.

End ProtocolLookup.

(** X1: the entry of a protocol in [protocol_counts] is the number of rows
    whose [Protocol] cell holds exactly that text; a protocol of no row has
    no entry, so no entry holds 0. *)
Theorem protocol_counts_lookup (df : DataFrame) (p : string) :
  ∃ stats, compute_stats (Some df) = Some stats
    ∧ protocol_counts stats !! p =
        (if decide (p ∈ dropna (Protocol <$> df))
         then Some (occurrences p (dropna (Protocol <$> df))) else None)
    ∧ protocol_counts stats !! p ≠ Some 0.
Proof.
  eexists; split; [reflexivity|]. simpl. unfold to_dict, value_counts.
  rewrite count_values_lookup. split; [done|].
  case_decide as Hin; [|done]. apply occurrences_elem in Hin.
  intros [= H0]. lia.
Qed.

(** X2: [protocol_counts] has one entry per distinct protocol of the
    table. *)
Theorem protocol_counts_size (df : DataFrame) :
  ∃ stats, compute_stats (Some df) = Some stats
    ∧ size (protocol_counts stats)
      = length (remove_dups (dropna (Protocol <$> df))).
Proof.
  eexists; split; [reflexivity|]. simpl. unfold to_dict.
  apply count_values_size.
Qed.

(** X3: the order of the rows does not matter for the protocol counts, the
    number of packets, or the combined count of any address. *)
Theorem compute_stats_row_order (df df' : DataFrame) (a : string) :
  df ≡ₚ df' →
  ∃ stats stats',
    compute_stats (Some df) = Some stats
    ∧ compute_stats (Some df') = Some stats'
    ∧ protocol_counts stats = protocol_counts stats'
    ∧ total_packets stats = total_packets stats'
    ∧ counter_get a (ip_counter df) = counter_get a (ip_counter df').
Proof.
  intros Hp. eexists _, _. split; [reflexivity|]. split; [reflexivity|].
  simpl. unfold to_dict, value_counts, dropna, ip_counter, all_ips.
  split_and!.
  - apply count_values_Permutation. by rewrite Hp.
  - by rewrite Hp.
  - rewrite !counter_get_Counter. apply occurrences_Permutation.
    by rewrite Hp.
Qed.

Lemma compute_stats_row_order_witness :
  ∃ stats stats',
    compute_stats (Some example_table) = Some stats
    ∧ compute_stats (Some (reverse example_table)) = Some stats'
    ∧ protocol_counts stats = protocol_counts stats'
    ∧ total_packets stats = total_packets stats'
    ∧ counter_get "1.1.1.1" (ip_counter example_table)
      = counter_get "1.1.1.1" (ip_counter (reverse example_table)).
Proof.
  apply (compute_stats_row_order example_table (reverse example_table)).
  apply Permutation_swap.
Defined.

(** X4: the report of two tables put end to end: the packets add up, and
    so do the count of every protocol and the combined count of every
    address. *)
Theorem compute_stats_app (df1 df2 : DataFrame) (p a : string) :
  ∃ s1 s2 s,
    compute_stats (Some df1) = Some s1
    ∧ compute_stats (Some df2) = Some s2
    ∧ compute_stats (Some (df1 ++ df2)) = Some s
    ∧ total_packets s = total_packets s1 + total_packets s2
    ∧ default 0 (protocol_counts s !! p)
      = default 0 (protocol_counts s1 !! p)
        + default 0 (protocol_counts s2 !! p)
    ∧ counter_get a (ip_counter (df1 ++ df2))
      = counter_get a (ip_counter df1) + counter_get a (ip_counter df2).
Proof.
  eexists _, _, _. do 3 (split; [reflexivity|]). simpl.
  unfold to_dict, value_counts, dropna. split_and!.
  - apply length_app.
  - by rewrite !count_values_count, fmap_app, omap_app, occurrences_app.
  - unfold ip_counter, all_ips.
    rewrite !counter_get_Counter, !fmap_app, !occurrences_app. lia.
Qed.

(** ** The ranking of the top addresses *)

Section Ranking.

Implicit Types (df : DataFrame) (a b k : string) (c : pydict)
  (x y : string * nat).

Lemma counter_item_of_key a c : a ∈ c.*1 → (a, counter_get a c) ∈ c.
Proof.
  induction c as [|[k v] c IH]; simpl.
  - intros H. by apply elem_of_nil in H.
  - rewrite elem_of_cons. destruct (decide (a = k)) as [->|Hk].
    + intros _. left.
    + intros [?|Hin]; [done|]. right. by apply IH.
Qed.

Lemma sublist_pair_cases x y (l : pydict) :
  x ∈ l → y ∈ l → x ≠ y →
  [x; y] `sublist_of` l ∨ [y; x] `sublist_of` l.
Proof.
  induction l as [|z l IH]; intros Hx Hy Hne.
  - by apply elem_of_nil in Hx.
  - apply elem_of_cons in Hx as [->|Hx], Hy as [->|Hy].
    + done.
    + left. by apply sublist_skip, singleton_sublist_l.
    + right. by apply sublist_skip, singleton_sublist_l.
    + destruct (IH Hx Hy Hne); [left | right]; by apply sublist_cons.
Qed.

Lemma decreasing_sublist_pair x y (l : pydict) :
  StronglySorted (λ y z, (z.2 ≤ y.2)%nat) l →
  [x; y] `sublist_of` l → (y.2 ≤ x.2)%nat.
Proof.
  intros Hs (k1 & k2 & -> & Hy%singleton_sublist_l)%sublist_cons_l.
  apply StronglySorted_app_1_r, StronglySorted_cons in Hs as [Hall _].
  by apply (proj1 (Forall_forall _ _) Hall).
Qed.

Lemma top_addresses_decreasing df :
  StronglySorted (λ y z, (z.2 ≤ y.2)%nat) (top_addresses df).
Proof.
  rewrite top_addresses_eq.
  apply (StronglySorted_app_1_l _ _ (drop 3 (sorted_reverse (ip_counter df)))).
  rewrite take_drop. apply sorted_reverse_decreasing.
Qed.

Lemma top_addresses_keys_NoDup df : NoDup (top_addresses df).*1.
Proof.
  rewrite top_addresses_eq, fmap_take.
  eapply sublist_NoDup; [apply sorted_keys_NoDup | apply sublist_take].
Qed.

Lemma first_index_take_elem a (l : list string) m i :
  first_index a (take m l) = Some i → a ∈ l.
Proof.
  intros Hi. apply dec_stable. intros Hn%first_index_None.
  by rewrite first_index_take, Hn in Hi.
Qed.

Lemma ip_counter_item df a :
  a ∈ all_ips df →
  (a, counter_get a (ip_counter df)) ∈ sorted_reverse (ip_counter df).
Proof.
  intros Hin. rewrite sorted_reverse_Permutation.
  by apply counter_item_of_key, Counter_keys_elem.
Qed.

Lemma counter_add_sum c k :
  sum_list (counter_add c k).*2 = S (sum_list c.*2).
Proof.
  unfold counter_add. induction c as [|[k' v] c IH]; [done|].
  cbn [dict_set counter_get]. destruct (decide (k = k')) as [->|Hk].
  - rewrite !fmap_cons. simpl. lia.
  - rewrite !fmap_cons. cbn [sum_list_with snd id]. rewrite IH. simpl. lia.
Qed.

Lemma Counter_sum_foldl (l : list string) : ∀ c,
  sum_list (foldl counter_add c l).*2 = sum_list c.*2 + length l.
Proof.
  induction l as [|k l IH]; intros c; simpl; [lia|].
  rewrite IH, counter_add_sum. lia.
Qed.

End Ranking.

(** X5: the counts of the top addresses never increase along the list, and
    no address is listed twice. *)
Theorem top_ips_decreasing_distinct (df : DataFrame) :
  ∃ stats, compute_stats (Some df) = Some stats
    ∧ StronglySorted (λ y z, (z.2 ≤ y.2)%nat) (top_ips stats)
    ∧ NoDup (top_ips stats).*1.
Proof.
  destruct (compute_stats_top_ips df) as (stats & Hstats & Htop).
  exists stats. rewrite Htop. split_and!; [done | |].
  - apply top_addresses_decreasing.
  - apply top_addresses_keys_NoDup.
Qed.

(** X6: an address with a strictly larger combined count ranks higher:
    whenever an address is among the top addresses, every address that
    counts more is there too, at a smaller position. *)
Theorem top_ips_larger_count_ranks_higher (df : DataFrame) (a b : string)
    (rb : nat) :
  counter_get b (ip_counter df) < counter_get a (ip_counter df) →
  rank b (top_addresses df) = Some rb →
  ∃ ra, rank a (top_addresses df) = Some ra ∧ ra < rb.
Proof.
  intros Hlt Hb. unfold rank in *.
  rewrite top_addresses_eq, fmap_take in Hb |- *.
  apply (first_index_sublist_take a b); [apply sorted_keys_NoDup | | done].
  assert (a ∈ all_ips df) as Ha.
  { apply Counter_keys_elem, dec_stable. intros Hn.
    apply counter_get_absent in Hn. unfold ip_counter in Hlt. lia. }
  assert (b ∈ all_ips df) as Hbin.
  { apply Counter_keys_elem.
    rewrite <- (sorted_reverse_Permutation (Counter (all_ips df))).
    apply first_index_take_elem in Hb. done. }
  apply ip_counter_item in Ha, Hbin.
  destruct (sublist_pair_cases _ _ _ Ha Hbin) as [Hab|Hba].
  - intros [= -> _]. lia.
  - by apply (fmap_sublist fst) in Hab.
  - apply decreasing_sublist_pair in Hba;
      [simpl in Hba; lia | apply sorted_reverse_decreasing].
Qed.

Lemma top_ips_larger_count_ranks_higher_witness :
  ∃ ra, rank "1.1.1.1" (top_addresses example_table) = Some ra ∧ ra < 1.
Proof.
  apply (top_ips_larger_count_ranks_higher example_table
           "1.1.1.1" "2.2.2.2" 1); [vm_compute; lia | reflexivity].
Defined.

(** X7: the first of the top addresses is a most active address: no
    address of the table has a larger combined count. *)
Theorem top_ips_head_is_maximum (df : DataFrame) (a b : string) (n : nat) :
  head (top_addresses df) = Some (a, n) →
  (counter_get b (ip_counter df) ≤ n)%nat.
Proof.
  rewrite top_addresses_eq. intros Hhead.
  destruct (decide (b ∈ all_ips df)) as [Hb|Hb].
  - apply ip_counter_item in Hb.
    pose proof (sorted_reverse_decreasing (ip_counter df)) as Hs.
    destruct (sorted_reverse (ip_counter df)) as [|x rest]; [done|].
    injection Hhead as ->.
    apply StronglySorted_cons in Hs as [Hall _].
    apply elem_of_cons in Hb as [[= _ ->]|Hb]; [done|].
    by apply (proj1 (Forall_forall _ _) Hall) in Hb.
  - unfold ip_counter. rewrite counter_get_absent; [lia|].
    by rewrite Counter_keys_elem.
Qed.

Lemma top_ips_head_is_maximum_witness :
  (counter_get "3.3.3.3" (ip_counter example_table) ≤ 2)%nat.
Proof.
  apply (top_ips_head_is_maximum example_table "1.1.1.1" "3.3.3.3" 2).
  reflexivity.
Defined.

(** X8: a table with at most three distinct addresses has all of them
    among its top addresses, each with its combined count. *)
Theorem top_ips_all_when_few (df : DataFrame) (a : string) :
  (distinct_address_count df ≤ 3)%nat →
  a ∈ all_ips df →
  (a, counter_get a (ip_counter df)) ∈ top_addresses df.
Proof.
  intros Hfew Ha. rewrite top_addresses_eq, take_ge.
  - by apply ip_counter_item.
  - rewrite sorted_reverse_length. unfold ip_counter.
    by rewrite Counter_length.
Qed.

Lemma top_ips_all_when_few_witness :
  ("3.3.3.3", counter_get "3.3.3.3" (ip_counter example_table))
  ∈ top_addresses example_table.
Proof.
  apply (top_ips_all_when_few example_table "3.3.3.3").
  - vm_compute. lia.
  - vm_compute. do 3 right. left.
Defined.

(** X9: every row counts twice in the address counter, once for its
    source and once for its destination: the combined counts of all
    addresses add up to twice the number of packets, and those of the top
    addresses to no more. *)
Theorem ip_counts_sum (df : DataFrame) :
  ∃ stats, compute_stats (Some df) = Some stats
    ∧ sum_list (ip_counter df).*2 = 2 * total_packets stats
    ∧ (sum_list (top_ips stats).*2 ≤ 2 * total_packets stats)%nat.
Proof.
  destruct (compute_stats_top_ips df) as (stats & Hstats & Htop).
  exists stats. rewrite Htop. injection Hstats as <-. cbn [total_packets].
  assert (sum_list (ip_counter df).*2 = 2 * length df) as Hsum.
  { unfold ip_counter, Counter, all_ips.
    rewrite Counter_sum_foldl, length_app, !length_fmap. simpl. lia. }
  split_and!; [done | done |].
  assert (sum_list (sorted_reverse (ip_counter df)).*2
          = sum_list (ip_counter df).*2) as Hperm.
  { by rewrite (sorted_reverse_Permutation (ip_counter df)). }
  rewrite <- Hsum, <- Hperm, top_addresses_eq.
  rewrite <- (take_drop 3 (sorted_reverse (ip_counter df))) at 2.
  rewrite fmap_app, sum_list_with_app. lia.
Qed.

(** * Further properties of the loader and the routes *)

(** X10: the loader returns the table exactly when the file can be read as
    one, and then prints nothing; when the file is missing or cannot be
    read it returns [None] after exactly one call of [print], with the
    not-found message or with "Error loading CSV: " followed by the text of
    the exception.  It never changes the file and never saves a figure. *)
Theorem load_network_data_effects (w : World) :
  network_data_csv (load_network_data w).2 = network_data_csv w
  ∧ saved_figures (load_network_data w).2 = saved_figures w
  ∧ match network_data_csv w with
    | FileTable df =>
        returned (load_network_data w) = Some (Columns df)
        ∧ stdout (load_network_data w).2 = stdout w
    | FileTableLacking column =>
        returned (load_network_data w) = Some (Lacking column)
        ∧ stdout (load_network_data w).2 = stdout w
    | FileMissing =>
        returned (load_network_data w) = None
        ∧ stdout (load_network_data w).2
          = stdout w ++ ["Error: network_data.csv file not found!"]
    | FileUnparsable e =>
        returned (load_network_data w) = None
        ∧ stdout (load_network_data w).2
          = stdout w ++ ["Error loading CSV: " +:+ e]
    end.
Proof.
  destruct w as [[|e|df|column] out figs]; simpl; split_and!; done.
Qed.

Section RouteProperties.

Variable png_base64 : Figure → option string.

(** The dashboard on a table with the four columns: the bar chart is drawn
    first, the pie chart second, and an exception of matplotlib ends the
    route where it is raised. *)
Lemma dashboard_table_run (df : DataFrame) out figs :
  let bar := protocol_figure (value_counts (Protocol <$> df)) in
  let pie := ip_figure (top_addresses df) in
  dashboard png_base64 (mkWorld (FileTable df) out figs)
  = match png_base64 bar, png_base64 pie with
    | Some protocol_chart, Some ip_chart =>
        (render_template "dashboard.html"
           (DashboardContext
              (mkStats (value_counts (Protocol <$> df)) (top_addresses df)
                 (length df) (mean (Packet_Size <$> df)))
              protocol_chart ip_chart),
         mkWorld (FileTable df) out (figs ++ [bar; pie]))
    | Some _, None =>
        (InternalServerError, mkWorld (FileTable df) out (figs ++ [bar]))
    | None, _ => (InternalServerError, mkWorld (FileTable df) out figs)
    end.
Proof.
  intros bar pie.
  unfold dashboard, mbind, IO_bind. rewrite load_network_data_table.
  cbn [compute_stats_loaded compute_stats protocol_counts top_ips].
  unfold create_protocol_chart, create_ip_chart, savefig, to_dict.
  change (dict (most_common 3 (ip_counter df))) with (top_addresses df).
  fold bar. fold pie.
  destruct (png_base64 bar) as [protocol_chart|]; [|done].
  destruct (png_base64 pie) as [ip_chart|]; [|done].
  cbn [network_data_csv stdout saved_figures]. by rewrite <- app_assoc.
Qed.

End RouteProperties.


(** X12: a file that cannot be parsed is answered exactly like a missing
    file: the dashboard shows the same error page, whose message asks to
    make sure that the file exists, the API the same error object, and no
    figure is saved. *)
Theorem routes_unparsable_as_missing (png_base64 : Figure → option string)
    (e : string) (out : list string) (figs : list Figure) :
  let missing := mkWorld FileMissing out figs in
  let unparsable := mkWorld (FileUnparsable e) out figs in
  returned (dashboard png_base64 unparsable)
    = returned (dashboard png_base64 missing)
  ∧ returned (dashboard png_base64 unparsable)
    = render_template "error.html"
        (ErrorContext "Could not load network_data.csv file. Please make sure it exists in the project directory.")
  ∧ returned (api_stats unparsable) = returned (api_stats missing)
  ∧ returned (api_stats unparsable)
    = jsonify (JsonError "Could not load data")
  ∧ saved_figures (dashboard png_base64 unparsable).2 = figs
  ∧ stdout (dashboard png_base64 unparsable).2
    = out ++ ["Error loading CSV: " +:+ e].
Proof. repeat split. Qed.



(** X14: a file that loads as a table but lacks one of the four columns is
    not answered with the error page: the [KeyError] of [compute_stats]
    escapes both routes, nothing is printed and no figure is saved. *)
Theorem routes_table_lacking_column (png_base64 : Figure → option string)
    (column : string) (out : list string) (figs : list Figure) :
  let w := mkWorld (FileTableLacking column) out figs in
  compute_stats_loaded (returned (load_network_data w)) = inl column
  ∧ dashboard png_base64 w = (InternalServerError, w)
  ∧ api_stats w = (InternalServerError, w).
Proof. repeat split. Qed.
